(** * A shallow embedding of the MCP tool-calling client

    The development follows [standard_client.py] (the chat-completions
    client with its bounded tool-calling loop) and the tool converter of
    [client.py] (the one-shot responses-API script).

    Python values are modelled as the code sees them: parsed JSON as an
    inductive type, dictionaries as association lists in insertion order,
    [None]-or-string values as [option string].  The remote collaborators
    (the MCP session, the chat-completions endpoint, [json.loads]) are the
    fields of an environment record; every request the client sends to them
    is recorded, in order, in the client's history. *)

From Stdlib Require Import ZArith List Lia.
From Stdlib Require QArith_base.
From stdpp Require Import base option list strings pretty.
From stdpp Require Import sorting.

Local Open Scope string_scope.
Local Open Scope list_scope.
Local Set Warnings "-register-all".

(** ** Python values obtained from JSON *)

(** [json.loads] and pydantic yield [None], [bool], [int], [float], [str],
    [list] and [dict] values.  A dictionary keeps its items in insertion
    order, every key once.  A finite float is kept as the rational it
    denotes. *)
Inductive json : Type :=
| JNull
| JBool (b : bool)
| JInt (n : Z)
| JFloat (q : QArith_base.Q)
| JStr (s : string)
| JList (items : list json)
| JDict (items : list (string * json)).

(** Python truth value testing: [None], [False], zero, and the empty string,
    list and dictionary are falsy. *)
Definition truthy (v : json) : bool :=
  match v with
  | JNull => false
  | JBool b => b
  | JInt n => negb (n =? 0)%Z
  | JFloat q => negb (QArith_base.Qnum q =? 0)%Z
  | JStr s => negb (String.eqb s "")
  | JList items => match items with [] => false | _ => true end
  | JDict items => match items with [] => false | _ => true end
  end.

(** [x or d] *)
Definition py_or (x d : json) : json := if truthy x then x else d.

(** [d.get(key)]: the value stored under [key], [None] when there is none. *)
Fixpoint dict_get (key : string) (items : list (string * json)) : json :=
  match items with
  | [] => JNull
  | (k, v) :: rest => if String.eqb k key then v else dict_get key rest
  end.

(** Subscripting a value that may or may not be a dictionary: [None] stands
    for a missing key as well as for a value that has no keys at all. *)
Definition field (key : string) (v : json) : json :=
  match v with
  | JDict items => dict_get key items
  | _ => JNull
  end.

(** [None]-or-string attributes ([tool.description], [message.content]). *)
Definition of_optional_str (s : option string) : json :=
  match s with
  | None => JNull
  | Some s => JStr s
  end.

(** [s or ""] on a [None]-or-string value: the result is always a string. *)
Definition str_or_empty (s : option string) : string :=
  match s with
  | None => ""
  | Some s => s
  end.

(** ** The MCP tool descriptor *)

Module mcp.

(** [mcp.types.Tool], restricted to the attributes the converters read. *)
Record Tool : Type := {
  name : string;
  description : option string;
  inputSchema : json;
}.

(** One block of [CallToolResult.content]. *)
Inductive ContentBlock : Type :=
| TextContent (text : string)
| ImageContent (data mimeType : string)
| EmbeddedResource (resource : json).

Record CallToolResult : Type := {
  content : list ContentBlock;
  isError : bool;
}.

End mcp.

(** The two assignments shared by both converters:
<<
    properties = {}
    required = []
    if isinstance(tool.inputSchema, dict):
        properties = tool.inputSchema.get("properties") or {}
        required = tool.inputSchema.get("required") or []
>> *)
Definition schema_properties (inputSchema : json) : json :=
  match inputSchema with
  | JDict items => py_or (dict_get "properties" items) (JDict [])
  | _ => JDict []
  end.

Definition schema_required (inputSchema : json) : json :=
  match inputSchema with
  | JDict items => py_or (dict_get "required" items) (JList [])
  | _ => JList []
  end.

(** ** [client.py]: the flat (responses API) tool format *)

Module client.

Definition convert_tool_format (tool : mcp.Tool) : json :=
  let properties := schema_properties (mcp.inputSchema tool) in
  let required := schema_required (mcp.inputSchema tool) in
  JDict [
    ("type", JStr "function");
    ("name", JStr (mcp.name tool));
    ("description", of_optional_str (mcp.description tool));
    ("parameters", JDict [
      ("type", JStr "object");
      ("properties", properties);
      ("required", required)
    ])
  ].

End client.

(** ** [standard_client.py] *)

Module standard_client.

Definition MAX_TOOL_CALLS : nat := 5.

(** The nested (chat completions) tool format. *)
Definition convert_tool_format (tool : mcp.Tool) : json :=
  let properties := schema_properties (mcp.inputSchema tool) in
  let required := schema_required (mcp.inputSchema tool) in
  JDict [
    ("type", JStr "function");
    ("function", JDict [
      ("name", JStr (mcp.name tool));
      ("description", JStr (str_or_empty (mcp.description tool)));
      ("parameters", JDict [
        ("type", JStr "object");
        ("properties", properties);
        ("required", required)
      ])
    ])
  ].

(** *** The assistant message of a completion *)

(** [tool_call.function] *)
Record Function : Type := {
  name : string;
  arguments : option string;
}.

Record ToolCall : Type := {
  id : string;
  function : Function;
}.

(** [response.choices[0].message]: its text (a string or [None]) and its
    tool calls (a list or [None]). *)
Record Message : Type := {
  content : option string;
  tool_calls : option (list ToolCall);
}.

(** *** The conversation *)

(** The content of a tool turn: the content blocks of the result, or the
    text built from an exception. *)
Inductive tool_content : Type :=
| Blocks (blocks : list mcp.ContentBlock)
| Text (s : string).

(** The dictionaries appended to [self.messages], by role.  An assistant
    turn is the [model_dump()] of the message. *)
Inductive turn : Type :=
| System (content : string)
| User (content : string)
| Assistant (message : Message)
| Tool (tool_call_id : string) (content : tool_content).

(** *** Requests to the collaborators *)

Inductive event : Type :=
| ListTools
| Create (messages : list turn) (tools : option (list json))
         (max_tokens : option nat)
| CallTool (name : string) (args : json).

(** A call that returns a value or raises an [Exception] [e]; the handlers
    only ever format [e], so the exception is kept as [str(e)].  What is not
    an [Exception] (a cancellation, a keyboard interrupt) is not modelled. *)
Inductive try (A : Type) : Type :=
| Ok (a : A)
| Raises (e : string).
Arguments Ok {A} a.
Arguments Raises {A} e.

(** Python exceptions that leave [process_query]: the [TypeError] of the
    final [join], and what [json.loads] raises besides
    [json.JSONDecodeError] -- a [RecursionError] on deeply nested text, a
    [ValueError] on an integer literal over the digit limit. *)
Inductive exn : Type :=
| TypeError (msg : string)
| ValueError (msg : string)
| RecursionError (msg : string).

(** [json.loads(s)]: the value, a [json.JSONDecodeError] [e] (kept as
    [str(e)]), or an exception of another class, which a handler for
    [json.JSONDecodeError] does not catch. *)
Inductive loaded : Type :=
| Decoded (v : json)
| JSONDecodeError (e : string)
| Uncaught (x : exn).

(** A statement that ends normally with a value, or with an exception that
    nothing around it catches. *)
Inductive ending (A : Type) : Type :=
| Finished (a : A)
| Escaped (x : exn).
Arguments Finished {A} a.
Arguments Escaped {A} x.

(** The collaborators.  A remote answer is a function of all the requests
    of the session so far, the current one last.  A completion request
    that is answered yields a message; failures of the model endpoint and
    of [list_tools] are not modelled. *)
Record env : Type := {
  (** [self.session.list_tools().tools] *)
  list_tools : list event -> list mcp.Tool;
  (** [self.openai.chat.completions.create(...).choices[0].message] *)
  chat_completions_create : list event -> Message;
  (** [self.session.call_tool(name, args)] *)
  call_tool : list event -> try mcp.CallToolResult;
  (** [json.loads(s)] *)
  json_loads : string -> loaded;
  (** [str(v)], as an f-string formats the decoded arguments *)
  str : json -> string;
}.

(** *** The client object *)

(** [self.messages], and the requests sent through [self.session] and
    [self.openai] since the session began, oldest first. *)
Record MCPClient : Type := {
  messages : list turn;
  history : list event;
}.

(** Methods are state transformers over the client. *)
Definition M (A : Type) : Type := MCPClient -> A * MCPClient.

Definition ret {A} (a : A) : M A := fun self => (a, self).

Definition bind {A B} (m : M A) (k : A -> M B) : M B :=
  fun self => let (a, self') := m self in k a self'.

Notation "x <- m ;; k" := (bind m (fun x => k))
  (at level 100, m at next level, right associativity).
Notation "m ;; k" := (bind m (fun _ => k))
  (at level 100, right associativity).

(** [self.messages.append(t)] *)
Definition append (t : turn) : M unit :=
  fun self =>
    (tt, {| messages := messages self ++ [t]; history := history self |}).

(** Sending a request: it joins the history, and the answer is read off
    the history. *)
Definition request {A} (ev : MCPClient -> event) (answer : list event -> A)
  : M A :=
  fun self =>
    let h := history self ++ [ev self] in
    (answer h, {| messages := messages self; history := h |}).

Definition SYSTEM_PROMPT : string :=
"You are a helpful assistant with access to tools.

Rules:
1. Call tools when you need information. Use valid JSON for arguments.
2. Once you have enough information, respond with a final answer (no more tool calls).
3. Never call a tool twice with the same arguments.
4. Keep search queries short and specific (3-6 words work best).".

Definition FORCE_FINAL_PROMPT : string :=
  "Please provide your final answer based on the information gathered so far. Do not make any more tool calls.".

(** An item of [final_text]: a string, or [None]. *)
Definition item : Type := option string.

(** How a call of [process_query] ends. *)
Inductive outcome : Type :=
| Returns (text : string)
| Throws (e : exn).

(** [sep.join(items)]: every item has to be a string; the first one that
    is not is reported by its index. *)
Fixpoint join_from (i : nat) (sep : string) (items : list item) : outcome :=
  match items with
  | [] => Returns ""
  | None :: _ =>
      Throws (TypeError ("sequence item " +:+ pretty i
                         +:+ ": expected str instance, NoneType found"))
  | Some s :: rest =>
      match rest with
      | [] => Returns s
      | _ =>
          match join_from (S i) sep rest with
          | Returns r => Returns (s +:+ sep +:+ r)
          | Throws e => Throws e
          end
      end
  end.

Definition join (sep : string) (items : list item) : outcome :=
  join_from 0 sep items.

(** The line feed of ["\n".join(final_text)]. *)
Definition LF : string := String (Ascii.ascii_of_nat 10) EmptyString.

(** The f-strings of [process_query]. *)

(** [f"Error: Invalid JSON in tool arguments. Please try again with valid
    JSON. Details: {e}"] *)
Definition invalid_json_text (e : string) : string :=
  "Error: Invalid JSON in tool arguments. Please try again with valid JSON. Details: " +:+ e.

(** [f"Error executing tool: {e}"] *)
Definition tool_error_text (e : string) : string :=
  "Error executing tool: " +:+ e.

(** [f"[Calling tool {tool_name} with args {tool_args}]"], the arguments
    already formatted. *)
Definition calling_text (tool_name tool_args : string) : string :=
  "[Calling tool " +:+ tool_name +:+ " with args " +:+ tool_args +:+ "]".

(** [f"[Stopped: exceeded maximum of {MAX_TOOL_CALLS} tool call rounds]"] *)
Definition stopped_text : string :=
  "[Stopped: exceeded maximum of " +:+ pretty MAX_TOOL_CALLS
    +:+ " tool call rounds]".

(** The local variables of the [while True] loop of [process_query]. *)
Record locals : Type := {
  response : Message;
  final_text : list item;
  tool_call_count : nat;
}.

(** How one pass through the loop body ends: at its last statement, back to
    the head of the loop, at a [break], or with an exception that leaves the
    loop. *)
Inductive step : Type :=
| Continue (l : locals)
| Break (l : locals)
| Escape (x : exn).

Section methods.

Variable E : env.

(** [await self.session.list_tools()] *)
Definition session_list_tools : M (list mcp.Tool) :=
  request (fun _ => ListTools) (list_tools E).

(** [self.openai.chat.completions.create(model=MODEL, tools=...,
    max_tokens=..., messages=self.messages)]; an omitted keyword is
    [None]. *)
Definition create (tools : option (list json)) (max_tokens : option nat)
  : M Message :=
  request (fun self => Create (messages self) tools max_tokens)
          (chat_completions_create E).

(** [await self.session.call_tool(tool_name, tool_args)] *)
Definition session_call_tool (tool_name : string) (tool_args : json)
  : M (try mcp.CallToolResult) :=
  request (fun _ => CallTool tool_name tool_args) (call_tool E).

(** [json.loads(tool_args_raw) if tool_args_raw else {}] *)
Definition decode_arguments (tool_args_raw : option string) : loaded :=
  match tool_args_raw with
  | Some raw =>
      if truthy (JStr raw) then json_loads E raw else Decoded (JDict [])
  | None => Decoded (JDict [])
  end.

(** The body of [for tool_call in content.tool_calls]. *)
Definition run_tool_call (tool_call : ToolCall) (final_text : list item)
  : M (ending (list item)) :=
  let tool_name := name (function tool_call) in
  let tool_args_raw := arguments (function tool_call) in
  match decode_arguments tool_args_raw with
  | Uncaught x =>
      (* not a json.JSONDecodeError: nothing catches it *)
      ret (Escaped x)
  | JSONDecodeError e =>
      (* except json.JSONDecodeError as e: ... continue *)
      append (Tool (id tool_call) (Text (invalid_json_text e))) ;;
      ret (Finished final_text)
  | Decoded tool_args =>
      r <- session_call_tool tool_name tool_args ;;
      let '(final_text, tool_content) :=
        match r with
        | Ok result =>
            (final_text ++
               [Some (calling_text tool_name (str E tool_args))],
             Blocks (mcp.content result))
        | Raises e =>
            (* except Exception as e: *)
            (final_text, Text (tool_error_text e))
        end in
      append (Tool (id tool_call) tool_content) ;;
      ret (Finished final_text)
  end.

(** [for tool_call in content.tool_calls]: an exception that escapes from
    the body ends the loop. *)
Fixpoint run_tool_calls (calls : list ToolCall) (final_text : list item)
  : M (ending (list item)) :=
  match calls with
  | [] => ret (Finished final_text)
  | tool_call :: rest =>
      r <- run_tool_call tool_call final_text ;;
      match r with
      | Finished final_text => run_tool_calls rest final_text
      | Escaped x => ret (Escaped x)
      end
  end.

(** One pass through the body of [while True]. *)
Definition loop_body (available_tools : list json) (l : locals) : M step :=
  let message := response l in
  append (Assistant message) ;;
  if (MAX_TOOL_CALLS <=? tool_call_count l)%nat then
    let final_text := final_text l ++ [Some stopped_text] in
    append (User FORCE_FINAL_PROMPT) ;;
    final_response <- create None (Some 1000) ;;
    ret (Break {| response := response l;
                  final_text :=
                    final_text ++
                      [Some (str_or_empty (content final_response))];
                  tool_call_count := tool_call_count l |})
  else
    match tool_calls message with
    | Some calls =>
        let tool_call_count := S (tool_call_count l) in
        r <- run_tool_calls calls (final_text l) ;;
        match r with
        | Escaped x => ret (Escape x)
        | Finished final_text =>
            response <- create (Some available_tools) (Some 1000) ;;
            ret (Continue {| response := response;
                             final_text := final_text;
                             tool_call_count := tool_call_count |})
        end
    | None =>
        ret (Break {| response := response l;
                      final_text := final_text l ++ [content message];
                      tool_call_count := tool_call_count l |})
    end.

(** [while True]: the passes are counted down from [fuel]; [None] when
    they are used up before the loop is left.  The loop is left at a
    [break], with the locals of that moment, or by an exception. *)
Fixpoint loop (fuel : nat) (available_tools : list json) (l : locals)
  : M (option (ending locals)) :=
  match fuel with
  | 0 => ret None
  | S fuel =>
      s <- loop_body available_tools l ;;
      match s with
      | Break l' => ret (Some (Finished l'))
      | Continue l' => loop fuel available_tools l'
      | Escape x => ret (Some (Escaped x))
      end
  end.

(** The statements of [process_query] ahead of the loop. *)
Definition prologue (query : string) : M (list json * locals) :=
  append (System SYSTEM_PROMPT) ;;
  append (User query) ;;
  tools <- session_list_tools ;;
  let available_tools := map convert_tool_format tools in
  response <- create (Some available_tools) None ;;
  append (Assistant response) ;;
  ret (available_tools,
       {| response := response; final_text := []; tool_call_count := 0 |}).

(** How [process_query] ends once the loop is left: with the [join] of
    [final_text], or with the exception that left the loop. *)
Definition epilogue (r : ending locals) : outcome :=
  match r with
  | Finished l => join LF (final_text l)
  | Escaped x => Throws x
  end.

Definition process_query (query : string) : M (option outcome) :=
  p <- prologue query ;;
  let '(available_tools, l) := p in
  r <- loop (S MAX_TOOL_CALLS) available_tools l ;;
  ret (option_map epilogue r).

(** The queries of one session, as [chat_loop] hands the lines it reads
    to [process_query] one after the other on the same client. *)
Fixpoint chat_loop (queries : list string) : M (list (option outcome)) :=
  match queries with
  | [] => ret []
  | query :: rest =>
      result <- process_query query ;;
      results <- chat_loop rest ;;
      ret (result :: results)
  end.

End methods.

End standard_client.

(** ** Observations on a run *)

Module observe.
Import standard_client.

(** The client after a method has run, and the value it returned. *)
Definition after {A} (m : M A) (self : MCPClient) : MCPClient := snd (m self).
Definition value {A} (m : M A) (self : MCPClient) : A := fst (m self).

(** A method only ever appends to the conversation: what was there before
    is still there, at the same positions. *)
Definition appends {A} (m : M A) : Prop :=
  forall self, messages self `prefix_of` messages (after m self).

(** The tool invocations of a history, in order. *)
Definition invocation (ev : event) : option (string * json) :=
  match ev with
  | CallTool tool_name tool_args => Some (tool_name, tool_args)
  | _ => None
  end.

Definition invocations (h : list event) : list (string * json) :=
  omap invocation h.

(** The calls of a batch whose arguments decode, with the decoded
    arguments. *)
Definition decoded (E : env) (tool_call : ToolCall) : option (string * json) :=
  match decode_arguments E (arguments (function tool_call)) with
  | Decoded tool_args => Some (name (function tool_call), tool_args)
  | JSONDecodeError _ => None
  | Uncaught _ => None
  end.

(** [n] passes through the loop body, each of which executes a batch of
    tool calls and returns to the head of the loop; [None] when one of
    them leaves the loop instead. *)
Fixpoint rounds (E : env) (n : nat) (available_tools : list json)
  (l : locals) : M (option locals) :=
  match n with
  | 0 => ret (Some l)
  | S n =>
      s <- loop_body E available_tools l ;;
      match s with
      | Continue l' => rounds E n available_tools l'
      | Break _ => ret None
      | Escape _ => ret None
      end
  end.

(** The first completion of a query: the answer to the request sent by
    the statements ahead of the loop. *)
Definition first_response (E : env) (query : string) (self : MCPClient)
  : Message :=
  response (snd (value (prologue E query) self)).

(** The model has answered some request with a message that carries
    neither tool calls nor a text. *)
Definition model_sent_nothing (E : env) : Prop :=
  exists h,
    tool_calls (chat_completions_create E h) = None /\
    content (chat_completions_create E h) = None.

(** [json.loads] has raised [x], an exception that is not a
    [JSONDecodeError], on some text. *)
Definition decoder_gave_up (E : env) (x : exn) : Prop :=
  exists s, json_loads E s = Uncaught x.

(** The parameter schema inside a converted tool, in either format. *)
Definition flat_parameters (converted_tool : json) : json :=
  field "parameters" converted_tool.

Definition nested_parameters (converted_tool : json) : json :=
  field "parameters" (field "function" converted_tool).

End observe.

(** ** Concrete collaborators

    A model that answers from a script, a tool server that knows one tool,
    and a decoder given by a table: enough to run the client on the spec's
    scenarios. *)

Module scenario.
Import standard_client.

(** The number of completion requests in a history. *)
Fixpoint completions (h : list event) : nat :=
  match h with
  | [] => 0
  | Create _ _ _ :: rest => S (completions rest)
  | _ :: rest => completions rest
  end.

Definition silent : Message := {| content := Some ""; tool_calls := None |}.

(** The [n]-th completion request is answered by the [n]-th message of
    the script, and by an empty text once the script is over. *)
Definition scripted (script : list Message) (h : list event) : Message :=
  nth (completions h - 1) script silent.

(** The tool server: [search] returns one text block, any other tool
    fails. *)
Definition search_server (h : list event) : try mcp.CallToolResult :=
  match last h with
  | Some (CallTool "search" _) =>
      Ok {| mcp.content := [mcp.TextContent "results"];
            mcp.isError := false |}
  | _ => Raises "Unknown tool"
  end.

Definition search_tool : mcp.Tool :=
  {| mcp.name := "search";
     mcp.description := Some "Search the web";
     mcp.inputSchema :=
       JDict [("type", JStr "object");
              ("properties", JDict [("query", JDict [("type", JStr "string")])]);
              ("required", JList [JStr "query"])] |}.

Definition QUOTE : string := String (Ascii.ascii_of_nat 34) EmptyString.

(** The text [{"query": "martin moder"}] and its decoding. *)
Definition query_text : string :=
  "{" +:+ QUOTE +:+ "query" +:+ QUOTE +:+ ": "
      +:+ QUOTE +:+ "martin moder" +:+ QUOTE +:+ "}".

Definition query_args : json := JDict [("query", JStr "martin moder")].

(** [n] copies of a text, one after the other. *)
Fixpoint times (n : nat) (s : string) : string :=
  match n with
  | 0 => ""
  | S n => s +:+ times n s
  end.

(** A text that is not JSON and is nested deeper than the decoder can
    follow: [json.loads] gives up with a [RecursionError] ahead of any
    syntax error. *)
Definition too_deep : string := times 2000 "[" +:+ "x" +:+ times 2000 "]".

Definition too_deep_error : exn :=
  RecursionError
    "maximum recursion depth exceeded while decoding a JSON array from a unicode string".

(** A decoder given by a table of texts and what [json.loads] makes of
    them; the empty text stands for the rest. *)
Fixpoint table_loads (table : list (string * loaded)) (s : string) : loaded :=
  match table with
  | [] => JSONDecodeError "Expecting value: line 1 column 1 (char 0)"
  | (text, r) :: rest =>
      if String.eqb text s then r else table_loads rest s
  end.

(** [str] of the two argument values of the scenarios. *)
Definition str_of_args (v : json) : string :=
  match v with
  | JDict [] => "{}"
  | _ => "{'query': 'martin moder'}"
  end.

Definition world (script : list Message) : env :=
  {| list_tools := fun _ => [search_tool];
     chat_completions_create := scripted script;
     call_tool := search_server;
     json_loads :=
       table_loads
         [(query_text, Decoded query_args);
          ("{}", Decoded (JDict []));
          ("{oops",
           JSONDecodeError
             "Expecting property name enclosed in double quotes: line 1 column 2 (char 1)");
          (too_deep, Uncaught too_deep_error)];
     str := str_of_args |}.

Definition fresh : MCPClient := {| messages := []; history := [] |}.

Definition call (i f : string) (a : option string) : ToolCall :=
  {| id := i; function := {| name := f; arguments := a |} |}.

Definition asks (calls : list ToolCall) : Message :=
  {| content := None; tool_calls := Some calls |}.

Definition says (text : option string) : Message :=
  {| content := text; tool_calls := None |}.

(** Some tool calls: a search, a payload that is not JSON, a tool the
    server does not know (without a payload), a search with an empty
    payload. *)
Definition search_call : ToolCall := call "call_1" "search" (Some query_text).
Definition bad_call : ToolCall := call "call_2" "search" (Some "{oops").
Definition boom_call : ToolCall := call "call_3" "boom" None.
Definition empty_call : ToolCall := call "call_4" "search" (Some "").
Definition deep_call : ToolCall := call "call_5" "search" (Some too_deep).

(** The locals a pass through the loop body ends with; those it began
    with when it ends with an exception. *)
Definition locals_of (l : locals) (s : step) : locals :=
  match s with
  | Continue l' => l'
  | Break l' => l'
  | Escape _ => l
  end.

(** The client and the locals at the head of the loop, for the first time
    and after one and two passes. *)
Definition at_loop (E : env) (query : string) : list json * locals * MCPClient :=
  prologue E query fresh.

Definition pass (E : env) (s : list json * locals * MCPClient)
  : list json * locals * MCPClient :=
  let '(available_tools, l, self) := s in
  let (s', self') := loop_body E available_tools l self in
  (available_tools, locals_of l s', self').

(** The model asks for the same search in two rounds in a row. *)
Definition same_search_twice : env :=
  world [asks [search_call]; asks [search_call]; says (Some "done")].

(** The model asks for three calls at once, then for none, then answers. *)
Definition uneven_batches : env :=
  world [asks [search_call; bad_call; boom_call]; asks []; says (Some "done")].

(** The model keeps asking for a search. *)
Definition insatiable : env :=
  world (repeat (asks [search_call]) 8).

End scenario.

(** ** The session around the queries *)

Module session.
Import standard_client.

(** [connect_to_server]: once the transport is open and the session is
    initialized, the tools are listed (their names are printed) and the
    conversation is set to the empty list.  Opening the transport and the
    handshake are not requests of the history. *)
Definition connect_to_server (E : env) : M unit :=
  response <- session_list_tools E ;;
  fun self => (tt, {| messages := []; history := history self |}).

(** [main], up to the cleanup: connect, then the chat loop, here over the
    lines it reads. *)
Definition main (E : env) (queries : list string) : M (list (option outcome)) :=
  connect_to_server E ;;
  chat_loop E queries.

End session.

(** ** Accounts of a conversation and of a history *)

Module census.
Import standard_client observe.

(** The contents of the system turns of a conversation, in order. *)
Definition system_prompt (t : turn) : option string :=
  match t with
  | System content => Some content
  | _ => None
  end.

Definition system_prompts (msgs : list turn) : list string :=
  omap system_prompt msgs.

(** A turn answers a tool call when it is a tool turn with the id of the
    call. *)
Definition answers (tool_call : ToolCall) (t : turn) : Prop :=
  exists content, t = Tool (id tool_call) content.

(** A batch that [json.loads] stopped with the exception [x]: the calls
    ahead of the one whose arguments it gave up on have their tool turns,
    in order, and there are no other turns. *)
Definition stopped_at (E : env) (x : exn) (calls : list ToolCall)
  (turns : list turn) : Prop :=
  exists answered tool_call pending,
    calls = answered ++ tool_call :: pending /\
    Forall2 answers answered turns /\
    decode_arguments E (arguments (function tool_call)) = Uncaught x.

(** The [tools] argument of the completion requests of a history, in order:
    a catalog, or [None] for a request without tools. *)
Definition catalog (ev : event) : option (option (list json)) :=
  match ev with
  | Create _ tools _ => Some tools
  | _ => None
  end.

Definition catalogs (h : list event) : list (option (list json)) :=
  omap catalog h.

(** The [messages] argument of the completion requests of a history. *)
Definition snapshot (ev : event) : option (list turn) :=
  match ev with
  | Create msgs _ _ => Some msgs
  | _ => None
  end.

Definition snapshots (h : list event) : list (list turn) :=
  omap snapshot h.

(** The [list_tools] requests of a history. *)
Definition listing (ev : event) : option unit :=
  match ev with
  | ListTools => Some tt
  | _ => None
  end.

Definition listings (h : list event) : nat := length (omap listing h).

(** Every completion request so far carried the conversation as it was
    then: the conversations sent are each a prefix of the next one, and of
    the conversation as it is now. *)
Definition replayed (self : MCPClient) : Prop :=
  StronglySorted prefix (snapshots (history self)) /\
  Forall (fun msgs => msgs `prefix_of` messages self) (snapshots (history self)).

(** A method that keeps [replayed]. *)
Definition replays {A} (m : M A) : Prop :=
  forall self, replayed self -> replayed (after m self).

(** A projection of the events that does not see tool invocations. *)
Definition blind_to_calls {B} (f : event -> option B) : Prop :=
  forall tool_name tool_args, f (CallTool tool_name tool_args) = None.

(** A method that adds no system turn. *)
Definition no_system_turn {A} (m : M A) : Prop :=
  forall self,
    system_prompts (messages (after m self)) = system_prompts (messages self).

End census.

(** * Properties *)

Import standard_client observe.

(** ** Methods as state transformers *)

Section monad.

Context {A B : Type}.

Lemma after_bind (m : M A) (k : A -> M B) self :
  after (bind m k) self = after (k (value m self)) (after m self).
Proof. unfold after, value, bind. destruct (m self); reflexivity. Qed.

Lemma value_bind (m : M A) (k : A -> M B) self :
  value (bind m k) self = value (k (value m self)) (after m self).
Proof. unfold after, value, bind. destruct (m self); reflexivity. Qed.

Lemma run_bind (m : M A) (k : A -> M B) self :
  bind m k self = k (value m self) (after m self).
Proof. unfold after, value, bind. destruct (m self); reflexivity. Qed.

Lemma appends_ret (a : A) : appends (ret a).
Proof. intros self. reflexivity. Qed.

Lemma appends_bind (m : M A) (k : A -> M B) :
  appends m -> (forall a, appends (k a)) -> appends (bind m k).
Proof.
  intros Hm Hk self. rewrite after_bind.
  etrans; [apply Hm | apply Hk].
Qed.

Lemma appends_request (ev : MCPClient -> event) (answer : list event -> A) :
  appends (request ev answer).
Proof. intros self. reflexivity. Qed.

End monad.

Lemma appends_append t : appends (append t).
Proof. intros self. cbn. apply prefix_app_r. reflexivity. Qed.

Create HintDb appends.
#[local] Hint Resolve appends_ret appends_bind appends_request appends_append
  : appends.

Section append_only.

Variable E : env.

Lemma appends_run_tool_call tc ft : appends (run_tool_call E tc ft).
Proof.
  unfold run_tool_call, session_call_tool.
  destruct (decode_arguments E _); auto with appends.
  apply appends_bind; auto with appends.
  intros [result | e]; auto with appends.
Qed.

Lemma appends_run_tool_calls calls : forall ft, appends (run_tool_calls E calls ft).
Proof.
  induction calls as [| tc rest IH]; intros ft; cbn [run_tool_calls].
  - auto with appends.
  - apply appends_bind; [apply appends_run_tool_call |].
    intros [ft' | x]; auto with appends.
Qed.

Lemma appends_loop_body tools l : appends (loop_body E tools l).
Proof.
  unfold loop_body, create.
  apply appends_bind; auto with appends. intros _.
  destruct (_ <=? _)%nat.
  - auto 6 with appends.
  - destruct (tool_calls _); auto with appends.
    apply appends_bind; [apply appends_run_tool_calls |].
    intros [ft' | x]; auto with appends.
Qed.

Lemma appends_loop fuel tools : forall l, appends (loop E fuel tools l).
Proof.
  induction fuel as [| fuel IH]; intros l; cbn [loop].
  - auto with appends.
  - apply appends_bind; auto using appends_loop_body.
    intros [l' | l' | x]; auto with appends.
Qed.

Lemma appends_prologue query : appends (prologue E query).
Proof. unfold prologue, session_list_tools, create. auto 10 with appends. Qed.

Lemma appends_process_query query : appends (process_query E query).
Proof.
  unfold process_query.
  apply appends_bind; auto using appends_prologue.
  intros [tools l]. apply appends_bind; auto using appends_loop with appends.
Qed.

Lemma appends_chat_loop queries : appends (chat_loop E queries).
Proof.
  induction queries as [| q rest IH]; cbn [chat_loop].
  - auto with appends.
  - apply appends_bind; auto using appends_process_query with appends.
Qed.

End append_only.

(** ** The equations of the loop *)

Section equations.

Variable E : env.

(** The decoding step fails exactly when the payload is a non-empty text
    that [json.loads] rejects. *)
Lemma decode_arguments_raises raw e :
  decode_arguments E raw = JSONDecodeError e <->
  exists s, raw = Some s /\ s <> "" /\ json_loads E s = JSONDecodeError e.
Proof.
  unfold decode_arguments. destruct raw as [s |]; cbn.
  - destruct (String.eqb_spec s "") as [-> | Hs]; cbn.
    + split; [discriminate | intros (s & [= <-] & Hs & _); contradiction].
    + split; [eauto | intros (s' & [= <-] & _ & H); exact H].
  - split; [discriminate | intros (s & [=] & _)].
Qed.

Lemma run_tool_call_malformed tc ft self e :
  decode_arguments E (arguments (function tc)) = JSONDecodeError e ->
  run_tool_call E tc ft self =
    (Finished ft,
     {| messages := messages self ++ [Tool (id tc) (Text (invalid_json_text e))];
        history := history self |}).
Proof. intros H. unfold run_tool_call. rewrite H. reflexivity. Qed.

Lemma run_tool_call_invoked tc ft self tool_args :
  decode_arguments E (arguments (function tc)) = Decoded tool_args ->
  let tool_name := name (function tc) in
  let h := history self ++ [CallTool tool_name tool_args] in
  run_tool_call E tc ft self =
    match call_tool E h with
    | Ok result =>
        (Finished (ft ++ [Some (calling_text tool_name (str E tool_args))]),
         {| messages := messages self ++ [Tool (id tc) (Blocks (mcp.content result))];
            history := h |})
    | Raises e =>
        (Finished ft,
         {| messages := messages self ++ [Tool (id tc) (Text (tool_error_text e))];
            history := h |})
    end.
Proof.
  intros H. unfold run_tool_call. rewrite H.
  rewrite run_bind. unfold session_call_tool, request, value, after; cbn.
  destruct (call_tool E _); reflexivity.
Qed.

(** An exception that no handler of the loop catches leaves the client as
    it is. *)
Lemma run_tool_call_uncaught tc ft self x :
  decode_arguments E (arguments (function tc)) = Uncaught x ->
  run_tool_call E tc ft self = (Escaped x, self).
Proof. intros H. unfold run_tool_call. rewrite H. reflexivity. Qed.

Lemma run_tool_calls_cons tc rest ft self :
  run_tool_calls E (tc :: rest) ft self =
    match value (run_tool_call E tc ft) self with
    | Finished ft' => run_tool_calls E rest ft' (after (run_tool_call E tc ft) self)
    | Escaped x => (Escaped x, after (run_tool_call E tc ft) self)
    end.
Proof.
  cbn [run_tool_calls]. rewrite run_bind.
  destruct (value (run_tool_call E tc ft) self); reflexivity.
Qed.

(** The three ways through the loop body. *)

Lemma loop_body_forced tools l self :
  MAX_TOOL_CALLS <= tool_call_count l ->
  let msgs := messages self ++ [Assistant (response l); User FORCE_FINAL_PROMPT] in
  let h := history self ++ [Create msgs None (Some 1000)] in
  loop_body E tools l self =
    (Break {| response := response l;
              final_text :=
                final_text l ++
                  [Some stopped_text;
                   Some (str_or_empty (content (chat_completions_create E h)))];
              tool_call_count := tool_call_count l |},
     {| messages := msgs; history := h |}).
Proof.
  intros H. unfold loop_body.
  destruct (Nat.leb_spec MAX_TOOL_CALLS (tool_call_count l)); [| lia].
  unfold bind, append, create, request, ret; cbn.
  rewrite <- !app_assoc. reflexivity.
Qed.

Lemma loop_body_tools tools l self calls :
  tool_call_count l < MAX_TOOL_CALLS ->
  tool_calls (response l) = Some calls ->
  let batch := run_tool_calls E calls (final_text l) in
  let self1 := after (append (Assistant (response l))) self in
  let self2 := after batch self1 in
  let h := history self2 ++ [Create (messages self2) (Some tools) (Some 1000)] in
  loop_body E tools l self =
    match value batch self1 with
    | Finished final_text =>
        (Continue {| response := chat_completions_create E h;
                     final_text := final_text;
                     tool_call_count := S (tool_call_count l) |},
         {| messages := messages self2; history := h |})
    | Escaped x => (Escape x, self2)
    end.
Proof.
  intros Hlt Hcalls. unfold loop_body.
  destruct (Nat.leb_spec MAX_TOOL_CALLS (tool_call_count l)); [lia |].
  rewrite Hcalls, run_bind, run_bind.
  destruct (value (run_tool_calls E calls (final_text l)) _); reflexivity.
Qed.

Lemma loop_body_answer tools l self :
  tool_call_count l < MAX_TOOL_CALLS ->
  tool_calls (response l) = None ->
  loop_body E tools l self =
    (Break {| response := response l;
              final_text := final_text l ++ [content (response l)];
              tool_call_count := tool_call_count l |},
     {| messages := messages self ++ [Assistant (response l)];
        history := history self |}).
Proof.
  intros Hlt Hnone. unfold loop_body.
  destruct (Nat.leb_spec MAX_TOOL_CALLS (tool_call_count l)); [lia |].
  rewrite Hnone. reflexivity.
Qed.

End equations.

(** ** Tool invocations of a batch *)

Section invocations.

Variable E : env.

Lemma invocations_app h1 h2 :
  invocations (h1 ++ h2) = invocations h1 ++ invocations h2.
Proof. apply omap_app. Qed.

Lemma invocations_run_tool_call tc ft self :
  invocations (history (after (run_tool_call E tc ft) self)) =
    invocations (history self) ++ option_list (decoded E tc).
Proof.
  unfold decoded, after.
  destruct (decode_arguments E _) as [tool_args | e | x] eqn:Hdec.
  - rewrite (run_tool_call_invoked E tc ft self tool_args Hdec).
    destruct (call_tool E _); cbn; apply invocations_app.
  - rewrite (run_tool_call_malformed E tc ft self e Hdec).
    cbn. symmetry. apply app_nil_r.
  - rewrite (run_tool_call_uncaught E tc ft self x Hdec).
    cbn. symmetry. apply app_nil_r.
Qed.

Lemma invocations_run_tool_calls calls : forall ft self ft',
  value (run_tool_calls E calls ft) self = Finished ft' ->
  invocations (history (after (run_tool_calls E calls ft) self)) =
    invocations (history self) ++ omap (decoded E) calls.
Proof.
  induction calls as [| tc rest IH]; intros ft self ft'.
  - intros _. cbn. symmetry. apply app_nil_r.
  - unfold value, after at 1. rewrite run_tool_calls_cons.
    destruct (value (run_tool_call E tc ft) self) as [ft1 | x];
      [| discriminate].
    intros Hrest. apply IH in Hrest. unfold after at 1 in Hrest.
    rewrite Hrest, invocations_run_tool_call, <- app_assoc.
    f_equal. cbn. destruct (decoded E tc); reflexivity.
Qed.

(** A round invokes every call of its batch whose arguments decode, in the
    order of the batch, and nothing else. *)
Lemma invocations_round tools l self calls l' self' :
  tool_calls (response l) = Some calls ->
  loop_body E tools l self = (Continue l', self') ->
  invocations (history self') =
    invocations (history self) ++ omap (decoded E) calls.
Proof.
  intros Hcalls Hstep.
  destruct (Nat.le_gt_cases MAX_TOOL_CALLS (tool_call_count l)) as [Hge | Hlt].
  - rewrite (loop_body_forced E tools l self Hge) in Hstep. discriminate.
  - rewrite (loop_body_tools E tools l self calls Hlt Hcalls) in Hstep.
    destruct (value (run_tool_calls E calls (final_text l)) _)
      as [ft' | x] eqn:Hbatch; [| discriminate].
    injection Hstep as _ <-. cbn [history].
    rewrite invocations_app, (invocations_run_tool_calls _ _ _ _ Hbatch). cbn.
    rewrite app_nil_r. reflexivity.
Qed.

End invocations.

(** ** The round counter *)

Section counter.

Variable E : env.

Lemma loop_body_continue tools l self l' self' :
  loop_body E tools l self = (Continue l', self') ->
  tool_call_count l < MAX_TOOL_CALLS /\
  tool_calls (response l) <> None /\
  tool_call_count l' = S (tool_call_count l).
Proof.
  intros Hstep.
  destruct (Nat.le_gt_cases MAX_TOOL_CALLS (tool_call_count l)) as [Hge | Hlt].
  - rewrite (loop_body_forced E tools l self Hge) in Hstep. discriminate.
  - destruct (tool_calls (response l)) as [calls |] eqn:Hcalls.
    + rewrite (loop_body_tools E tools l self calls Hlt Hcalls) in Hstep.
      destruct (value (run_tool_calls E calls (final_text l)) _);
        [| discriminate].
      injection Hstep as <- _. cbn. auto.
    + rewrite (loop_body_answer E tools l self Hlt Hcalls) in Hstep.
      discriminate.
Qed.

Lemma rounds_count n tools : forall l self l',
  value (rounds E n tools l) self = Some l' ->
  tool_call_count l' = tool_call_count l + n.
Proof.
  unfold value.
  induction n as [| n IH]; intros l self l'; cbn [rounds].
  - intros [= <-]. lia.
  - unfold bind.
    destruct (loop_body E tools l self) as [[l1 | l1 | x] self1] eqn:Hstep; cbn.
    + intros H. apply IH in H.
      apply loop_body_continue in Hstep as (_ & _ & Hcount). lia.
    + discriminate.
    + discriminate.
Qed.

(** The loop of [process_query] goes through the same passes: after [n]
    completed rounds it is at the head of the loop with what they left. *)
Lemma loop_after_rounds n fuel tools : forall l self l',
  value (rounds E n tools l) self = Some l' ->
  loop E (n + fuel) tools l self =
    loop E fuel tools l' (after (rounds E n tools l) self).
Proof.
  unfold value, after.
  induction n as [| n IH]; intros l self l'; cbn [rounds Nat.add loop].
  - intros [= <-]. reflexivity.
  - unfold bind.
    destruct (loop_body E tools l self) as [[l1 | l1 | x] self1] eqn:Hstep; cbn.
    + apply IH.
    + discriminate.
    + discriminate.
Qed.

(** The loop is left within [MAX_TOOL_CALLS + 1] passes. *)
Lemma loop_terminates fuel tools : forall l self,
  0 < fuel ->
  MAX_TOOL_CALLS < fuel + tool_call_count l ->
  exists r self', loop E fuel tools l self = (Some r, self').
Proof.
  induction fuel as [| fuel IH]; intros l self Hpos Hfuel; [lia |].
  cbn [loop]. unfold bind.
  destruct (loop_body E tools l self) as [[l1 | l1 | x] self1] eqn:Hstep; cbn.
  - apply loop_body_continue in Hstep as (Hlt & _ & Hcount).
    apply IH; lia.
  - eauto.
  - eauto.
Qed.

End counter.

(** ** How a query ends *)

Lemma join_from_strings sep items : forall i,
  Forall is_Some items -> exists text, join_from i sep items = Returns text.
Proof.
  induction items as [| x rest IH]; intros i Hall; cbn [join_from].
  - eauto.
  - inversion Hall as [| ? ? [s ->] Hrest]; subst.
    destruct rest as [| y rest']; [eauto |].
    destruct (IH (S i) Hrest) as [r ->]. eauto.
Qed.

Lemma join_from_throws sep items : forall i e,
  join_from i sep items = Throws e -> In None items.
Proof.
  induction items as [| x rest IH]; intros i e; cbn [join_from].
  - discriminate.
  - destruct x as [s |]; [| left; reflexivity].
    destruct rest as [| y rest']; [discriminate |].
    destruct (join_from (S i) sep (y :: rest')) eqn:Hrest; [discriminate |].
    intros _. right. eapply IH, Hrest.
Qed.

Lemma strings_no_None (items : list item) :
  Forall is_Some items -> ~ In None items.
Proof.
  intros Hall Hin. rewrite Forall_forall in Hall.
  apply list_elem_of_In in Hin.
  destruct (Hall _ Hin) as [s [=]].
Qed.

Section ending.

Variable E : env.

Lemma prologue_eq query self :
  let msgs := messages self ++ [System SYSTEM_PROMPT; User query] in
  let h1 := history self ++ [ListTools] in
  let available_tools := map convert_tool_format (list_tools E h1) in
  let h2 := h1 ++ [Create msgs (Some available_tools) None] in
  let response := chat_completions_create E h2 in
  prologue E query self =
    ((available_tools,
      {| response := response; final_text := []; tool_call_count := 0 |}),
     {| messages := msgs ++ [Assistant response]; history := h2 |}).
Proof.
  unfold prologue, bind, append, session_list_tools, create, request, ret.
  cbn. rewrite <- !app_assoc. reflexivity.
Qed.

Lemma run_tool_call_strings tc ft self ft' :
  value (run_tool_call E tc ft) self = Finished ft' ->
  Forall is_Some ft -> Forall is_Some ft'.
Proof.
  unfold value.
  destruct (decode_arguments E (arguments (function tc)))
    as [tool_args | e | x] eqn:Hdec.
  - rewrite (run_tool_call_invoked E tc ft self tool_args Hdec).
    destruct (call_tool E _); cbn; intros [= <-] Hall; [| exact Hall].
    apply Forall_app; split; [exact Hall | repeat constructor; eauto].
  - rewrite (run_tool_call_malformed E tc ft self e Hdec).
    intros [= <-] Hall. exact Hall.
  - rewrite (run_tool_call_uncaught E tc ft self x Hdec). discriminate.
Qed.

Lemma run_tool_calls_strings calls : forall ft self ft',
  value (run_tool_calls E calls ft) self = Finished ft' ->
  Forall is_Some ft -> Forall is_Some ft'.
Proof.
  induction calls as [| tc rest IH]; intros ft self ft'.
  - intros [= <-] Hall. exact Hall.
  - unfold value. rewrite run_tool_calls_cons.
    destruct (value (run_tool_call E tc ft) self) as [ft1 | x] eqn:Hcall;
      [| discriminate].
    intros Hrest Hall. eapply IH; [exact Hrest |].
    eapply run_tool_call_strings; eauto.
Qed.

(** An exception that escapes from a batch was raised by [json.loads] on
    the arguments of one of its calls. *)
Lemma run_tool_calls_escaped calls : forall ft self x,
  value (run_tool_calls E calls ft) self = Escaped x ->
  exists tc,
    In tc calls /\
    decode_arguments E (arguments (function tc)) = Uncaught x.
Proof.
  induction calls as [| tc rest IH]; intros ft self x.
  - discriminate.
  - unfold value. rewrite run_tool_calls_cons.
    destruct (value (run_tool_call E tc ft) self) as [ft1 | x1] eqn:Hcall.
    + intros Hrest. apply IH in Hrest as (tc' & Hin & Hdec).
      exists tc'. split; [right; exact Hin | exact Hdec].
    + intros [= <-]. exists tc. split; [left; reflexivity |].
      unfold value in Hcall.
      destruct (decode_arguments E (arguments (function tc)))
        as [tool_args | e | x] eqn:Hdec.
      * rewrite (run_tool_call_invoked E tc ft self tool_args Hdec) in Hcall.
        destruct (call_tool E _); discriminate.
      * rewrite (run_tool_call_malformed E tc ft self e Hdec) in Hcall.
        discriminate.
      * rewrite (run_tool_call_uncaught E tc ft self x Hdec) in Hcall.
        injection Hcall as <-. reflexivity.
Qed.

Lemma decode_arguments_uncaught raw x :
  decode_arguments E raw = Uncaught x -> decoder_gave_up E x.
Proof.
  unfold decode_arguments. destruct raw as [s |]; [| discriminate].
  destruct (truthy (JStr s)); [| discriminate].
  intros H. exists s. exact H.
Qed.

(** Every item of [final_text] is a string, except possibly the text of
    the answer that ended the loop; an exception that leaves the loop comes
    from [json.loads]. *)
Lemma loop_exit fuel tools : forall l self r self',
  Forall is_Some (final_text l) ->
  (exists h, response l = chat_completions_create E h) ->
  loop E fuel tools l self = (Some r, self') ->
  match r with
  | Finished l' => In None (final_text l') -> model_sent_nothing E
  | Escaped x => decoder_gave_up E x
  end.
Proof.
  induction fuel as [| fuel IH]; intros l self r self' Hall Hfrom;
    cbn [loop]; [discriminate |].
  unfold bind.
  destruct (Nat.le_gt_cases MAX_TOOL_CALLS (tool_call_count l)) as [Hge | Hlt].
  - rewrite (loop_body_forced E tools l self Hge). cbn.
    intros [= <- _] Hin. cbn in Hin.
    apply in_app_or in Hin as [Hin | [[=] | [[=] | []]]].
    exfalso. eapply strings_no_None; eauto.
  - destruct (tool_calls (response l)) as [calls |] eqn:Hcalls.
    + rewrite (loop_body_tools E tools l self calls Hlt Hcalls).
      destruct (value (run_tool_calls E calls (final_text l)) _)
        as [ft' | x] eqn:Hbatch; cbn.
      * apply IH; cbn; [| eauto].
        eapply run_tool_calls_strings; eauto.
      * intros [= <- _].
        apply run_tool_calls_escaped in Hbatch as (tc & _ & Hdec).
        eapply decode_arguments_uncaught, Hdec.
    + rewrite (loop_body_answer E tools l self Hlt Hcalls). cbn.
      intros [= <- _] Hin. cbn in Hin.
      apply in_app_or in Hin as [Hin | [Hnone | []]].
      * exfalso. eapply strings_no_None; eauto.
      * destruct Hfrom as [h Hh]. exists h. rewrite <- Hh. auto.
Qed.

(** [process_query] always comes to an end.  It raises only when the model
    has sent a message with neither tool calls nor a text, or when
    [json.loads] has raised something else than a [JSONDecodeError]. *)
Lemma process_query_ends query self :
  exists out,
    value (process_query E query) self = Some out /\
    forall x, out = Throws x -> model_sent_nothing E \/ decoder_gave_up E x.
Proof.
  unfold value, process_query, bind.
  rewrite prologue_eq.
  set (tools := map convert_tool_format _).
  set (l := {| response := _ |}). set (self1 := {| messages := _ |}).
  destruct (loop_terminates E (S MAX_TOOL_CALLS) tools l self1)
    as (r & self' & Hloop); [lia | subst l; cbn [tool_call_count]; lia |].
  rewrite Hloop. cbn. eexists; split; [reflexivity |].
  intros x Hthrows.
  assert (Hall : Forall is_Some (final_text l)) by constructor.
  assert (Hfrom : exists h, response l = chat_completions_create E h)
    by (subst l; cbn; eauto).
  pose proof (loop_exit _ _ l self1 r self' Hall Hfrom Hloop) as Hexit.
  destruct r as [l' | x']; cbn in Hthrows.
  - left. apply join_from_throws in Hthrows. apply Hexit, Hthrows.
  - injection Hthrows as <-. right. exact Hexit.
Qed.

(** When the model always sends a text with an answer that has no tool
    calls, and [json.loads] raises nothing but [JSONDecodeError],
    [process_query] returns a text. *)
Lemma process_query_returns query self :
  ~ model_sent_nothing E ->
  (forall x, ~ decoder_gave_up E x) ->
  exists text, value (process_query E query) self = Some (Returns text).
Proof.
  intros Hsent Hdecoder.
  destruct (process_query_ends query self) as ([text | x] & Hout & Hthrows).
  - eauto.
  - exfalso. destruct (Hthrows x eq_refl); [eauto | eapply Hdecoder; eauto].
Qed.

End ending.

(** * The properties of the specification *)

(** ** Tool descriptors *)

Lemma py_or_not_None x d : d <> JNull -> py_or x d <> JNull.
Proof.
  unfold py_or. destruct (truthy x) eqn:Hx; [| auto].
  intros _ ->. discriminate.
Qed.

Lemma py_or_falsy x d : truthy x = false -> py_or x d = d.
Proof. unfold py_or. intros ->. reflexivity. Qed.

Lemma schema_properties_not_None schema : schema_properties schema <> JNull.
Proof.
  destruct schema; cbn; try discriminate. apply py_or_not_None. discriminate.
Qed.

Lemma schema_required_not_None schema : schema_required schema <> JNull.
Proof.
  destruct schema; cbn; try discriminate. apply py_or_not_None. discriminate.
Qed.

Lemma schema_properties_default schema :
  truthy (field "properties" schema) = false ->
  schema_properties schema = JDict [].
Proof. destruct schema; cbn; auto using py_or_falsy. Qed.

Lemma schema_required_default schema :
  truthy (field "required" schema) = false ->
  schema_required schema = JList [].
Proof. destruct schema; cbn; auto using py_or_falsy. Qed.

(** C5 -- both converters give [properties] and [required] in every
    converted tool, never as [None]; when the schema of the descriptor is not
    a dictionary, or has no (or a null, or an otherwise falsy) [properties]
    or [required], the converted tool has the empty dictionary and the empty
    list there.  The nested format carries a string as [description], the
    empty one when the descriptor has none. *)
Theorem converters_default_missing_fields (tool : mcp.Tool) :
  let schema := mcp.inputSchema tool in
  let flat := flat_parameters (client.convert_tool_format tool) in
  let nested := nested_parameters (standard_client.convert_tool_format tool) in
  let description :=
    field "description" (field "function" (standard_client.convert_tool_format tool)) in
  (field "properties" flat <> JNull /\ field "required" flat <> JNull /\
   field "properties" nested <> JNull /\ field "required" nested <> JNull) /\
  (truthy (field "properties" schema) = false ->
   field "properties" flat = JDict [] /\ field "properties" nested = JDict []) /\
  (truthy (field "required" schema) = false ->
   field "required" flat = JList [] /\ field "required" nested = JList []) /\
  (exists s, description = JStr s) /\
  (mcp.description tool = None -> description = JStr "").
Proof.
  cbn. repeat split.
  - apply schema_properties_not_None.
  - apply schema_required_not_None.
  - apply schema_properties_not_None.
  - apply schema_required_not_None.
  - apply schema_properties_default; assumption.
  - apply schema_properties_default; assumption.
  - apply schema_required_default; assumption.
  - apply schema_required_default; assumption.
  - eauto.
  - intros ->. reflexivity.
Qed.

(** A descriptor whose schema is not a dictionary and that has no
    description. *)
Lemma converters_default_missing_fields_witness :
  let tool := {| mcp.name := "search"; mcp.description := None;
                 mcp.inputSchema := JStr "string" |} in
  (truthy (field "properties" (mcp.inputSchema tool)) = false /\
   truthy (field "required" (mcp.inputSchema tool)) = false /\
   mcp.description tool = None) /\
  client.convert_tool_format tool =
    JDict [("type", JStr "function"); ("name", JStr "search");
           ("description", JNull);
           ("parameters",
            JDict [("type", JStr "object"); ("properties", JDict []);
                   ("required", JList [])])] /\
  field "properties" (nested_parameters (standard_client.convert_tool_format tool))
    = JDict [] /\
  field "required" (nested_parameters (standard_client.convert_tool_format tool))
    = JList [] /\
  field "description" (field "function" (standard_client.convert_tool_format tool))
    = JStr "".
Proof.
  intros tool.
  destruct (converters_default_missing_fields tool)
    as (_ & Hprops & Hreq & _ & Hdesc).
  split; [repeat split |].
  split; [reflexivity |].
  split; [apply Hprops; reflexivity |].
  split; [apply Hreq; reflexivity |].
  apply Hdesc; reflexivity.
Defined.

(** ** The round budget *)

(** C1 -- when the round counter has reached [MAX_TOOL_CALLS] (5) at the head
    of the loop, the pass appends the response and a user turn telling the
    model to answer now, sends exactly one request, without tools, and
    leaves the loop with the text of its answer (the empty string when it
    has none) as the last item of [final_text]; no tool is invoked. *)
Theorem forced_final_at_round_budget E tools l self fuel :
  MAX_TOOL_CALLS <= tool_call_count l ->
  let msgs := messages self ++ [Assistant (response l); User FORCE_FINAL_PROMPT] in
  let h := history self ++ [Create msgs None (Some 1000)] in
  let final_response := chat_completions_create E h in
  let l' :=
    {| response := response l;
       final_text :=
         final_text l ++
           [Some stopped_text; Some (str_or_empty (content final_response))];
       tool_call_count := tool_call_count l |} in
  let self' := {| messages := msgs; history := h |} in
  MAX_TOOL_CALLS = 5 /\
  loop_body E tools l self = (Break l', self') /\
  loop E (S fuel) tools l self = (Some (Finished l'), self') /\
  invocations (history self') = invocations (history self).
Proof.
  intros Hge msgs h final_response l' self'.
  pose proof (loop_body_forced E tools l self Hge) as Hpass.
  split; [reflexivity |]. split; [exact Hpass |]. split.
  - cbn [loop]. unfold bind. rewrite Hpass. reflexivity.
  - subst self' h. cbn [history]. rewrite invocations_app. cbn.
    apply app_nil_r.
Qed.

(** At a counter of five, a response that asks for a search is not served:
    the next request has no tools and its answer ends the loop. *)
Lemma forced_final_at_round_budget_witness :
  let l := {| response := scenario.asks [scenario.search_call];
              final_text := []; tool_call_count := 5 |} in
  let msgs := [Assistant (scenario.asks [scenario.search_call]);
               User FORCE_FINAL_PROMPT] in
  MAX_TOOL_CALLS <= tool_call_count l /\
  loop (scenario.world [scenario.says (Some "What I know so far.")]) 1 [] l
       scenario.fresh =
    (Some (Finished
             {| response := scenario.asks [scenario.search_call];
                final_text :=
                  [Some "[Stopped: exceeded maximum of 5 tool call rounds]";
                   Some "What I know so far."];
                tool_call_count := 5 |}),
     {| messages := msgs; history := [Create msgs None (Some 1000)] |}).
Proof.
  intros l msgs.
  assert (Hge : MAX_TOOL_CALLS <= tool_call_count l)
    by (unfold MAX_TOOL_CALLS; cbn; lia).
  split; [exact Hge |].
  exact (proj1 (proj2 (proj2
    (forced_final_at_round_budget
       (scenario.world [scenario.says (Some "What I know so far.")])
       [] l scenario.fresh 0 Hge)))).
Defined.

(** C2 -- the round counter is zero when the loop is entered, and after [n]
    passes that each executed a batch of tool calls it is [n], whatever the
    model asked for in each batch. *)
Theorem round_counter_counts_batches E query self n l :
  let start := prologue E query self in
  let available_tools := fst (fst start) in
  value (rounds E n available_tools (snd (fst start))) (snd start) = Some l ->
  tool_call_count (snd (fst start)) = 0 /\ tool_call_count l = n.
Proof.
  intros start available_tools Hrounds.
  apply rounds_count in Hrounds.
  subst start. rewrite prologue_eq in *. cbn in *. auto.
Qed.

(** A batch of three calls, of which one is invoked successfully, one is
    malformed and one fails, then an empty batch: two rounds. *)
Lemma round_counter_counts_batches_witness :
  let E := scenario.uneven_batches in
  let start := prologue E "three at once" scenario.fresh in
  let two := rounds E 2 (fst (fst start)) (snd (fst start)) in
  exists l,
    value two (snd start) = Some l /\
    tool_call_count l = 2 /\
    length (invocations (history (after two (snd start)))) = 2.
Proof.
  intros E start two.
  assert (Hrun : exists l, value two (snd start) = Some l)
    by (vm_compute; eauto).
  destruct Hrun as [l Hl]. exists l.
  split; [exact Hl |].
  split; [| vm_compute; reflexivity].
  exact (proj2 (round_counter_counts_batches E "three at once"
                  scenario.fresh 2 l Hl)).
Defined.

(** ** Tool calls *)






(** C10 -- a tool call whose arguments are [None] or the empty string is
    decoded to the empty dictionary without consulting [json.loads], and the
    tool is invoked with it: the request joins the history, and the turn
    appended is the outcome of the invocation. *)
Theorem empty_arguments_invoke_with_empty_mapping E tc ft self :
  arguments (function tc) = None \/ arguments (function tc) = Some "" ->
  let h := history self ++ [CallTool (name (function tc)) (JDict [])] in
  let outcome :=
    match call_tool E h with
    | Ok result => Blocks (mcp.content result)
    | Raises e => Text (tool_error_text e)
    end in
  decode_arguments E (arguments (function tc)) = Decoded (JDict []) /\
  history (after (run_tool_call E tc ft) self) = h /\
  messages (after (run_tool_call E tc ft) self) =
    messages self ++ [Tool (id tc) outcome].
Proof.
  intros Hempty h outcome.
  assert (Hdec : decode_arguments E (arguments (function tc))
                 = Decoded (JDict []))
    by (destruct Hempty as [-> | ->]; reflexivity).
  split; [exact Hdec |].
  unfold after. rewrite (run_tool_call_invoked E tc ft self (JDict []) Hdec).
  fold h. subst outcome. destruct (call_tool E h); split; reflexivity.
Qed.

(** An empty payload, which the decoder of the scenario would reject. *)
Lemma empty_arguments_invoke_with_empty_mapping_witness :
  let E := scenario.world [] in
  arguments (function scenario.empty_call) = Some "" /\
  json_loads E "" = JSONDecodeError "Expecting value: line 1 column 1 (char 0)" /\
  history (after (run_tool_call E scenario.empty_call []) scenario.fresh) =
    [CallTool "search" (JDict [])] /\
  messages (after (run_tool_call E scenario.empty_call []) scenario.fresh) =
    [Tool "call_4" (Blocks [mcp.TextContent "results"])].
Proof.
  intros E.
  pose proof (empty_arguments_invoke_with_empty_mapping
                E scenario.empty_call [] scenario.fresh (or_intror eq_refl))
    as (_ & Hhistory & Hmessages).
  split; [reflexivity |]. split; [reflexivity |].
  split; [exact Hhistory | exact Hmessages].
Defined.

(** C9 -- the invocations of two rounds in a row are the decodable calls of
    the first batch followed by those of the second, whatever the history
    holds already: a call that the model asks for in both rounds, with the
    same decoded arguments, is sent to the tool server both times. *)
Theorem no_deduplication_across_rounds
    E tools l self calls1 l1 self1 calls2 l2 self2 :
  tool_calls (response l) = Some calls1 ->
  loop_body E tools l self = (Continue l1, self1) ->
  tool_calls (response l1) = Some calls2 ->
  loop_body E tools l1 self1 = (Continue l2, self2) ->
  invocations (history self2) =
    invocations (history self)
      ++ omap (decoded E) calls1 ++ omap (decoded E) calls2 /\
  (forall tc invoked,
     In tc calls1 -> In tc calls2 -> decoded E tc = Some invoked ->
     exists before between afterwards,
       invocations (history self2) =
         invocations (history self)
           ++ before ++ invoked :: between ++ invoked :: afterwards).
Proof.
  intros Hcalls1 Hpass1 Hcalls2 Hpass2.
  assert (Hall : invocations (history self2) =
                 invocations (history self)
                   ++ omap (decoded E) calls1 ++ omap (decoded E) calls2).
  { rewrite (invocations_round E tools l1 self1 calls2 l2 self2 Hcalls2 Hpass2).
    rewrite (invocations_round E tools l self calls1 l1 self1 Hcalls1 Hpass1).
    symmetry. apply app_assoc. }
  split; [exact Hall |].
  intros tc invoked Hin1 Hin2 Hdecoded.
  apply in_split in Hin1 as (a1 & b1 & ->).
  apply in_split in Hin2 as (a2 & b2 & ->).
  exists (omap (decoded E) a1), (omap (decoded E) b1 ++ omap (decoded E) a2),
         (omap (decoded E) b2).
  rewrite Hall, !omap_app. cbn. rewrite Hdecoded.
  rewrite <- !app_assoc. reflexivity.
Qed.

(** The model asks for the same search in the first and in the second
    round. *)
Lemma no_deduplication_across_rounds_witness :
  let E := scenario.same_search_twice in
  let s0 := scenario.at_loop E "search for martin moder on the web" in
  let s1 := scenario.pass E s0 in
  let s2 := scenario.pass E s1 in
  let search := ("search", scenario.query_args) in
  (tool_calls (response (snd (fst s0))) = Some [scenario.search_call] /\
   tool_calls (response (snd (fst s1))) = Some [scenario.search_call]) /\
  decoded E scenario.search_call = Some search /\
  invocations (history (snd s0)) = [] /\
  invocations (history (snd s2)) = [search; search].
Proof.
  intros E s0 s1 s2 search.
  pose proof (no_deduplication_across_rounds
                E (fst (fst s0)) (snd (fst s0)) (snd s0) [scenario.search_call]
                (snd (fst s1)) (snd s1) [scenario.search_call]
                (snd (fst s2)) (snd s2)
                eq_refl eq_refl eq_refl eq_refl) as [Hall _].
  split; [split; reflexivity |].
  split; [reflexivity |].
  split; [reflexivity |].
  exact Hall.
Defined.

(** ** The conversation *)

Lemma loop_body_first_append E tools l self :
  messages self ++ [Assistant (response l)]
    `prefix_of` messages (after (loop_body E tools l) self).
Proof.
  destruct (Nat.le_gt_cases MAX_TOOL_CALLS (tool_call_count l)) as [Hge | Hlt].
  - unfold after. rewrite (loop_body_forced E tools l self Hge). cbn.
    exists [User FORCE_FINAL_PROMPT]. rewrite <- app_assoc. reflexivity.
  - destruct (tool_calls (response l)) as [calls |] eqn:Hcalls.
    + unfold after at 1.
      rewrite (loop_body_tools E tools l self calls Hlt Hcalls).
      destruct (value (run_tool_calls E calls (final_text l)) _);
        cbn [snd messages];
        apply (appends_run_tool_calls E calls (final_text l)
                 (after (append (Assistant (response l))) self)).
    + unfold after. rewrite (loop_body_answer E tools l self Hlt Hcalls).
      reflexivity.
Qed.

Lemma loop_first_append E fuel tools l self :
  messages self ++ [Assistant (response l)]
    `prefix_of` messages (after (loop E (S fuel) tools l) self).
Proof.
  cbn [loop]. rewrite after_bind.
  etrans; [apply loop_body_first_append |].
  destruct (value (loop_body E tools l) self) as [l' | l' | x].
  - apply appends_loop.
  - reflexivity.
  - reflexivity.
Qed.

(** C6 -- one assistant turn per completion does not hold for the first
    completion of a query: its response is in the conversation twice, once
    from the statement ahead of the loop and once from the first pass
    through it. *)
Theorem first_response_appended_twice E query self :
  let r := first_response E query self in
  messages self ++ [System SYSTEM_PROMPT; User query; Assistant r; Assistant r]
    `prefix_of` messages (after (process_query E query) self).
Proof.
  intros r. subst r. unfold first_response, process_query.
  rewrite after_bind. unfold value, after at 2. rewrite prologue_eq.
  cbn [fst snd response].
  set (r := chat_completions_create E _).
  set (tools := map convert_tool_format _).
  set (l := {| response := r |}). set (self1 := {| messages := _ |}).
  rewrite after_bind.
  change (messages self ++ [System SYSTEM_PROMPT; User query; Assistant r; Assistant r])
    with (messages self ++ [System SYSTEM_PROMPT; User query] ++ [Assistant r] ++ [Assistant (response l)]).
  rewrite !app_assoc.
  change ((messages self ++ [System SYSTEM_PROMPT; User query]) ++ [Assistant r])
    with (messages self1).
  exact (loop_first_append E MAX_TOOL_CALLS tools l self1).
Qed.

(** C7 -- every step of the loop, every query and every sequence of queries
    on one client leaves the conversation it found as a prefix of the
    conversation it leaves: nothing is removed or replaced, and the length
    never goes down. *)
Theorem conversation_is_append_only E :
  (forall tc ft, appends (run_tool_call E tc ft)) /\
  (forall tools l, appends (loop_body E tools l)) /\
  (forall query self,
     messages self `prefix_of` messages (after (process_query E query) self) /\
     length (messages self)
       <= length (messages (after (process_query E query) self))) /\
  (forall queries self,
     messages self `prefix_of` messages (after (chat_loop E queries) self) /\
     length (messages self)
       <= length (messages (after (chat_loop E queries) self))).
Proof.
  split; [apply appends_run_tool_call |].
  split; [apply appends_loop_body |].
  split.
  - intros query self.
    pose proof (appends_process_query E query self) as Hprefix.
    split; [exact Hprefix | apply prefix_length, Hprefix].
  - intros queries self.
    pose proof (appends_chat_loop E queries self) as Hprefix.
    split; [exact Hprefix | apply prefix_length, Hprefix].
Qed.

(** ** The answer *)

(** C8 -- an answer without tool calls whose text is the empty string is
    returned, but one whose text is [None] makes the final [join] raise a
    [TypeError], which leaves [process_query]. *)
Theorem answer_without_text_raises :
  value (process_query (scenario.world [scenario.says (Some "")]) "hello")
        scenario.fresh
    = Some (Returns "") /\
  value (process_query (scenario.world [scenario.says None]) "hello")
        scenario.fresh
    = Some (Throws (TypeError
        "sequence item 0: expected str instance, NoneType found")).
Proof. split; vm_compute; reflexivity. Qed.

(** ** The scenarios of the specification *)

(** One search, then the answer: the result is the announcement of the call
    followed by the answer, after one round. *)
Example scenario_one_search :
  let E := scenario.world
             [scenario.asks [scenario.search_call];
              scenario.says (Some "He is a biologist.")] in
  let query := "search for martin moder on the web" in
  value (process_query E query) scenario.fresh =
    Some (Returns ("[Calling tool search with args {'query': 'martin moder'}]"
                   +:+ LF +:+ "He is a biologist.")) /\
  invocations (history (after (process_query E query) scenario.fresh)) =
    [("search", scenario.query_args)].
Proof. split; vm_compute; reflexivity. Qed.

(** The same search in two rounds is carried out twice. *)
Example scenario_same_search_twice :
  invocations
    (history (after (process_query scenario.same_search_twice "again")
                    scenario.fresh)) =
    [("search", scenario.query_args); ("search", scenario.query_args)].
Proof. vm_compute; reflexivity. Qed.

(** A model that asks for a tool in every response is served five times;
    the sixth request of the loop has no tools and ends the query. *)
Example scenario_six_rounds :
  let self' := after (process_query scenario.insatiable "more") scenario.fresh in
  length (invocations (history self')) = 5 /\
  (exists msgs, last (history self') = Some (Create msgs None (Some 1000))) /\
  value (process_query scenario.insatiable "more") scenario.fresh =
    Some (Returns
      (calling_text "search" "{'query': 'martin moder'}" +:+ LF +:+
       calling_text "search" "{'query': 'martin moder'}" +:+ LF +:+
       calling_text "search" "{'query': 'martin moder'}" +:+ LF +:+
       calling_text "search" "{'query': 'martin moder'}" +:+ LF +:+
       calling_text "search" "{'query': 'martin moder'}" +:+ LF +:+
       "[Stopped: exceeded maximum of 5 tool call rounds]" +:+ LF)).
Proof.
  split; [vm_compute; reflexivity |].
  split; [vm_compute; eexists; reflexivity | vm_compute; reflexivity].
Qed.

(** A direct answer: the conversation holds it twice. *)
Example scenario_direct_answer :
  messages (after (process_query (scenario.world [scenario.says (Some "Hi")])
                                 "hello") scenario.fresh) =
    [System SYSTEM_PROMPT; User "hello";
     Assistant (scenario.says (Some "Hi")); Assistant (scenario.says (Some "Hi"))].
Proof. vm_compute; reflexivity. Qed.

(** * Further properties of the code *)

Import census session.

(** ** The converters *)

(** X1 -- a schema that is a dictionary with a non-empty [properties] or
    [required] has them forwarded unchanged by both converters. *)
Theorem converters_forward_given_fields (tool : mcp.Tool) items :
  mcp.inputSchema tool = JDict items ->
  let flat := flat_parameters (client.convert_tool_format tool) in
  let nested := nested_parameters (standard_client.convert_tool_format tool) in
  (truthy (dict_get "properties" items) = true ->
   field "properties" flat = dict_get "properties" items /\
   field "properties" nested = dict_get "properties" items) /\
  (truthy (dict_get "required" items) = true ->
   field "required" flat = dict_get "required" items /\
   field "required" nested = dict_get "required" items).
Proof.
  intros Hschema. cbn. rewrite Hschema. cbn. unfold py_or.
  split; intros ->; split; reflexivity.
Qed.

Lemma converters_forward_given_fields_witness :
  let tool := scenario.search_tool in
  field "properties" (nested_parameters (standard_client.convert_tool_format tool))
    = JDict [("query", JDict [("type", JStr "string")])] /\
  field "required" (flat_parameters (client.convert_tool_format tool))
    = JList [JStr "query"].
Proof.
  intros tool.
  destruct (converters_forward_given_fields tool _ eq_refl) as [Hprops Hreq].
  split.
  - exact (proj2 (Hprops eq_refl)).
  - exact (proj1 (Hreq eq_refl)).
Defined.

(** X2 -- the two formats of one tool agree on the type tag, the name and
    the parameter schema; they agree on the description exactly when the
    descriptor has one. *)
Theorem converters_agree (tool : mcp.Tool) :
  let flat := client.convert_tool_format tool in
  let nested := standard_client.convert_tool_format tool in
  field "type" nested = field "type" flat /\
  field "name" (field "function" nested) = field "name" flat /\
  field "parameters" (field "function" nested) = field "parameters" flat /\
  (field "description" (field "function" nested) = field "description" flat
   <-> mcp.description tool <> None).
Proof.
  cbn. repeat split; try reflexivity.
  - intros Heq Hnone. rewrite Hnone in Heq. discriminate.
  - intros Hsome. destruct (mcp.description tool); [reflexivity | contradiction].
Qed.

(** ** One query *)

(** X3 -- when the first response has no tool calls and has a text,
    [process_query] returns exactly this text; it has sent one [list_tools]
    request and one completion request (with the catalog, without
    [max_tokens]) and nothing else, and the conversation has gained the
    system turn, the user turn and the response, twice. *)
Theorem direct_answer E query self text :
  let r := first_response E query self in
  tool_calls r = None ->
  content r = Some text ->
  let msgs := messages self ++ [System SYSTEM_PROMPT; User query] in
  let h := history self ++ [ListTools] in
  let available_tools := map convert_tool_format (list_tools E h) in
  process_query E query self =
    (Some (Returns text),
     {| messages := msgs ++ [Assistant r; Assistant r];
        history := h ++ [Create msgs (Some available_tools) None] |}).
Proof.
  intros r Hcalls Htext msgs h available_tools.
  assert (Hr : r = chat_completions_create E
                     (h ++ [Create msgs (Some available_tools) None])).
  { subst r. unfold first_response, value. rewrite prologue_eq. reflexivity. }
  clearbody r.
  unfold process_query, bind. rewrite prologue_eq.
  fold msgs h available_tools. rewrite <- Hr.
  cbn [loop]. unfold bind.
  rewrite loop_body_answer;
    [| unfold MAX_TOOL_CALLS; cbn; lia | exact Hcalls].
  cbn. rewrite Htext. cbn. rewrite <- !app_assoc. reflexivity.
Qed.

Lemma direct_answer_witness :
  let E := scenario.world [scenario.says (Some "Hi")] in
  (tool_calls (first_response E "hello" scenario.fresh) = None /\
   content (first_response E "hello" scenario.fresh) = Some "Hi") /\
  value (process_query E "hello") scenario.fresh = Some (Returns "Hi") /\
  length (history (after (process_query E "hello") scenario.fresh)) = 2.
Proof.
  intros E.
  pose proof (direct_answer E "hello" scenario.fresh "Hi" eq_refl eq_refl)
    as Hrun.
  split; [split; reflexivity |].
  unfold value, after. rewrite Hrun. split; reflexivity.
Defined.

(** ** One round *)

Lemma run_tool_call_cases E tc ft self :
  (exists x,
     decode_arguments E (arguments (function tc)) = Uncaught x /\
     run_tool_call E tc ft self = (Escaped x, self)) \/
  (exists ft' content self',
     run_tool_call E tc ft self = (Finished ft', self') /\
     messages self' = messages self ++ [Tool (id tc) content]).
Proof.
  destruct (decode_arguments E (arguments (function tc)))
    as [tool_args | e | x] eqn:Hdec.
  - right. rewrite (run_tool_call_invoked E tc ft self tool_args Hdec).
    destruct (call_tool E _); eauto 6.
  - right. rewrite (run_tool_call_malformed E tc ft self e Hdec). eauto 6.
  - left. exists x. split;
      [reflexivity | exact (run_tool_call_uncaught E tc ft self x Hdec)].
Qed.

Lemma run_tool_calls_turns E calls : forall ft self,
  exists turns,
    messages (after (run_tool_calls E calls ft) self) = messages self ++ turns /\
    match value (run_tool_calls E calls ft) self with
    | Finished _ => Forall2 answers calls turns
    | Escaped x => stopped_at E x calls turns
    end.
Proof.
  induction calls as [| tc rest IH]; intros ft self.
  - exists []. split; [symmetry; apply app_nil_r | constructor].
  - unfold after, value. rewrite run_tool_calls_cons. unfold value, after.
    destruct (run_tool_call_cases E tc ft self)
      as [(x & Hdec & ->) | (ft' & c & self' & -> & Hc)]; cbn [fst snd].
    + exists []. split; [symmetry; apply app_nil_r |].
      exists [], tc, rest. split; [reflexivity |]. split; [constructor | exact Hdec].
    + destruct (IH ft' self') as (turns & Hturns & Hall).
      unfold after, value in Hturns, Hall.
      exists (Tool (id tc) c :: turns). split.
      * rewrite Hturns, Hc, <- app_assoc. reflexivity.
      * destruct (fst (run_tool_calls E rest ft' self')) as [ft'' | x].
        -- constructor; [exists c; reflexivity | exact Hall].
        -- destruct Hall as (answered & tc' & pending & -> & Hall & Hdec).
           exists (tc :: answered), tc', pending.
           split; [reflexivity |]. split; [| exact Hdec].
           constructor; [exists c; reflexivity | exact Hall].
Qed.

(** X4 -- a pass below the cap on a response with tool calls appends the
    response and then tool turns, and nothing else.  When the pass goes on
    to ask the model again, there is exactly one tool turn for every call of
    the batch, in the order of the batch and with the id of its call --
    whether the call returned, raised, or had arguments that [json.loads]
    rejected with a [JSONDecodeError].  Otherwise the pass ends with an
    exception that [json.loads] raised on the arguments of one call, and
    exactly the calls ahead of that one have their tool turn. *)
Theorem round_answers_each_call E tools l self calls :
  tool_call_count l < MAX_TOOL_CALLS ->
  tool_calls (response l) = Some calls ->
  exists turns,
    messages (after (loop_body E tools l) self) =
      messages self ++ Assistant (response l) :: turns /\
    match value (loop_body E tools l) self with
    | Continue _ => Forall2 answers calls turns
    | Escape x => stopped_at E x calls turns
    | Break _ => False
    end.
Proof.
  intros Hlt Hcalls. unfold after, value.
  rewrite (loop_body_tools E tools l self calls Hlt Hcalls).
  destruct (run_tool_calls_turns E calls (final_text l)
              (after (append (Assistant (response l))) self))
    as (turns & Hturns & Hall).
  exists turns.
  destruct (value (run_tool_calls E calls (final_text l)) _) as [ft' | x];
    cbn [fst snd messages]; (split; [| exact Hall]);
    rewrite Hturns; cbn; rewrite <- app_assoc; reflexivity.
Qed.

Lemma round_answers_each_call_witness :
  let E := scenario.uneven_batches in
  let l := {| response := scenario.asks [scenario.search_call; scenario.bad_call;
                                         scenario.boom_call];
              final_text := []; tool_call_count := 0 |} in
  tool_call_count l < MAX_TOOL_CALLS /\
  exists turns,
    messages (after (loop_body E [] l) scenario.fresh) =
      Assistant (response l) :: turns /\
    Forall2 answers [scenario.search_call; scenario.bad_call; scenario.boom_call]
            turns.
Proof.
  intros E l.
  assert (Hlt : tool_call_count l < MAX_TOOL_CALLS)
    by (unfold MAX_TOOL_CALLS; cbn; lia).
  split; [exact Hlt |].
  destruct (round_answers_each_call E [] l scenario.fresh _ Hlt eq_refl)
    as (turns & Hturns & Hall).
  exists turns. split; [exact Hturns |].
  destruct (value (loop_body E [] l) scenario.fresh) as [l' | l' | x] eqn:Hpass.
  - exact Hall.
  - contradiction.
  - vm_compute in Hpass. discriminate.
Defined.

(** A batch whose second call has arguments nested too deeply: the first
    call has its tool turn, the second and the third have none. *)
Example scenario_aborted_round :
  let E := scenario.world [] in
  let l := {| response := scenario.asks [scenario.search_call; scenario.deep_call;
                                         scenario.boom_call];
              final_text := []; tool_call_count := 0 |} in
  loop_body E [] l scenario.fresh =
    (Escape scenario.too_deep_error,
     {| messages := [Assistant (response l);
                     Tool "call_1" (Blocks [mcp.TextContent "results"])];
        history := [CallTool "search" scenario.query_args] |}).
Proof. vm_compute; reflexivity. Qed.

(** ** The requests of a query *)

Section requests.

Variable E : env.
Context {B : Type} (f : event -> option B).
Hypothesis f_blind : blind_to_calls f.

Lemma omap_run_tool_call tc ft self :
  omap f (history (after (run_tool_call E tc ft) self)) = omap f (history self).
Proof.
  unfold after.
  destruct (decode_arguments E (arguments (function tc)))
    as [tool_args | e | x] eqn:Hdec.
  - rewrite (run_tool_call_invoked E tc ft self tool_args Hdec).
    destruct (call_tool E _); cbn [snd history];
      rewrite omap_app; cbn; rewrite f_blind; apply app_nil_r.
  - rewrite (run_tool_call_malformed E tc ft self e Hdec). reflexivity.
  - rewrite (run_tool_call_uncaught E tc ft self x Hdec). reflexivity.
Qed.

Lemma omap_run_tool_calls calls : forall ft self,
  omap f (history (after (run_tool_calls E calls ft) self)) = omap f (history self).
Proof.
  induction calls as [| tc rest IH]; intros ft self.
  - reflexivity.
  - unfold after. rewrite run_tool_calls_cons.
    destruct (value (run_tool_call E tc ft) self) as [ft' | x].
    + etrans; [apply IH | apply omap_run_tool_call].
    + apply omap_run_tool_call.
Qed.

End requests.

Lemma catalog_blind : blind_to_calls catalog.
Proof. intros tool_name tool_args. reflexivity. Qed.

Lemma listing_blind : blind_to_calls listing.
Proof. intros tool_name tool_args. reflexivity. Qed.

Lemma snapshot_blind : blind_to_calls snapshot.
Proof. intros tool_name tool_args. reflexivity. Qed.

(** The requests of the loop: one with the catalog for every completed
    round, and one without tools exactly when the loop is left at the cap. *)
Lemma loop_accounts E fuel tools : forall l self r self',
  tool_call_count l <= MAX_TOOL_CALLS ->
  loop E fuel tools l self = (Some r, self') ->
  exists n,
    tool_call_count l <= n <= MAX_TOOL_CALLS /\
    catalogs (history self') =
      catalogs (history self)
        ++ replicate (n - tool_call_count l) (Some tools)
        ++ (if (n =? MAX_TOOL_CALLS)%nat then [None] else []) /\
    listings (history self') = listings (history self).
Proof.
  induction fuel as [| fuel IH]; intros l self r self' Hle; cbn [loop];
    [discriminate |].
  unfold bind.
  destruct (Nat.le_gt_cases MAX_TOOL_CALLS (tool_call_count l)) as [Hge | Hlt].
  - rewrite (loop_body_forced E tools l self Hge). cbn.
    intros [= <- <-]. cbn [tool_call_count history].
    assert (Heq : tool_call_count l = MAX_TOOL_CALLS) by lia.
    exists (tool_call_count l).
    rewrite Nat.sub_diag, (proj2 (Nat.eqb_eq _ _) Heq).
    unfold catalogs, listings. rewrite !omap_app. cbn.
    rewrite app_nil_r. split; [lia | split; reflexivity].
  - destruct (tool_calls (response l)) as [calls |] eqn:Hcalls.
    + rewrite (loop_body_tools E tools l self calls Hlt Hcalls).
      destruct (value (run_tool_calls E calls (final_text l)) _)
        as [ft' | x]; cbn.
      * intros Hloop. apply IH in Hloop; [| cbn; lia].
        cbn [tool_call_count history] in Hloop.
        destruct Hloop as (n & Hbounds & Hcatalogs & Hlistings).
        exists n. split; [lia |].
        unfold catalogs, listings in *.
        rewrite omap_app in Hcatalogs. rewrite omap_app in Hlistings.
        rewrite (omap_run_tool_calls E catalog catalog_blind) in Hcatalogs.
        rewrite (omap_run_tool_calls E listing listing_blind) in Hlistings.
        cbn in Hcatalogs, Hlistings. rewrite app_nil_r in Hlistings.
        split; [| exact Hlistings].
        rewrite Hcatalogs, <- app_assoc. f_equal.
        replace (n - tool_call_count l)
          with (S (n - S (tool_call_count l))) by lia.
        reflexivity.
      * intros [= <- <-]. exists (tool_call_count l).
        rewrite Nat.sub_diag.
        destruct (Nat.eqb_spec (tool_call_count l) MAX_TOOL_CALLS); [lia |].
        unfold catalogs, listings.
        rewrite (omap_run_tool_calls E catalog catalog_blind).
        rewrite (omap_run_tool_calls E listing listing_blind).
        cbn. rewrite app_nil_r. split; [lia | split; reflexivity].
    + rewrite (loop_body_answer E tools l self Hlt Hcalls). cbn.
      intros [= <- <-]. cbn [tool_call_count history].
      exists (tool_call_count l). rewrite Nat.sub_diag.
      destruct (Nat.eqb_spec (tool_call_count l) MAX_TOOL_CALLS); [lia |].
      cbn. rewrite app_nil_r. split; [lia | split; reflexivity].
Qed.


(** ** The shape of a query *)

Lemma loop_shape E fuel tools : forall l self r self',
  loop E fuel tools l self = (Some r, self') ->
  exists n l_n s,
    n < fuel /\
    value (rounds E n tools l) self = Some l_n /\
    loop_body E tools l_n (after (rounds E n tools l) self) = (s, self') /\
    match s with
    | Break l' => r = Finished l'
    | Escape x => r = Escaped x
    | Continue _ => False
    end.
Proof.
  unfold value, after.
  induction fuel as [| fuel IH]; intros l self r self'; cbn [loop];
    [discriminate |].
  unfold bind.
  destruct (loop_body E tools l self) as [[l1 | l1 | x] self1] eqn:Hstep; cbn.
  - intros Hloop.
    apply IH in Hloop as (n & l_n & s & Hn & Hrounds & Hpass & Hleaves).
    exists (S n), l_n, s. split; [lia |].
    cbn [rounds]. unfold bind. rewrite Hstep. cbn. auto.
  - intros [= <- <-]. exists 0, l, (Break l1). split; [lia |]. cbn. auto.
  - intros [= <- <-]. exists 0, l, (Escape x). split; [lia |]. cbn. auto.
Qed.


(** The bound is reached: a model that always asks for a tool gets six
    requests with the catalog and a seventh without. *)
Example scenario_seven_requests :
  let E := scenario.insatiable in
  let T := map convert_tool_format [scenario.search_tool] in
  catalogs (history (after (process_query E "more") scenario.fresh)) =
    replicate 6 (Some T) ++ [None].
Proof. vm_compute; reflexivity. Qed.

(** ** Every request replays the conversation *)

Section replay.

Context {A B : Type}.

Lemma replays_ret (a : A) : replays (ret a).
Proof. intros self Hself. exact Hself. Qed.

Lemma replays_bind (m : M A) (k : A -> M B) :
  replays m -> (forall a, replays (k a)) -> replays (bind m k).
Proof. intros Hm Hk self Hself. rewrite after_bind. apply Hk, Hm, Hself. Qed.

End replay.

Lemma replays_append t : replays (append t).
Proof.
  intros self [Hsorted Hprefix]. split; [exact Hsorted |].
  cbn. eapply Forall_impl; [exact Hprefix |].
  intros msgs Hmsgs. cbn in Hmsgs. etrans; [exact Hmsgs |].
  apply prefix_app_r. reflexivity.
Qed.

Lemma replays_create E tools max_tokens : replays (create E tools max_tokens).
Proof.
  intros self [Hsorted Hprefix]. unfold replayed, snapshots.
  cbn. rewrite omap_app. cbn. split.
  - apply StronglySorted_app_2; [| exact Hsorted | repeat constructor].
    intros x1 x2 Hx1 Hx2. apply list_elem_of_singleton in Hx2 as ->.
    rewrite Forall_forall in Hprefix. apply Hprefix, Hx1.
  - apply Forall_app. split; [exact Hprefix |].
    apply Forall_singleton. reflexivity.
Qed.

Lemma replays_session_list_tools E : replays (session_list_tools E).
Proof.
  intros self Hself. unfold replayed, snapshots in *.
  cbn. rewrite omap_app. cbn. rewrite app_nil_r. exact Hself.
Qed.

Lemma replays_session_call_tool E tool_name tool_args :
  replays (session_call_tool E tool_name tool_args).
Proof.
  intros self Hself. unfold replayed, snapshots in *.
  cbn. rewrite omap_app. cbn. rewrite app_nil_r. exact Hself.
Qed.

Create HintDb replays.
#[local] Hint Resolve replays_ret replays_bind replays_append replays_create
  replays_session_list_tools replays_session_call_tool : replays.

Section replay_methods.

Variable E : env.

Lemma replays_run_tool_call tc ft : replays (run_tool_call E tc ft).
Proof.
  unfold run_tool_call.
  destruct (decode_arguments E _); auto with replays.
  apply replays_bind; auto with replays.
  intros [result | e]; auto with replays.
Qed.

Lemma replays_run_tool_calls calls : forall ft, replays (run_tool_calls E calls ft).
Proof.
  induction calls as [| tc rest IH]; intros ft; cbn [run_tool_calls].
  - auto with replays.
  - apply replays_bind; [apply replays_run_tool_call |].
    intros [ft' | x]; auto with replays.
Qed.

Lemma replays_loop_body tools l : replays (loop_body E tools l).
Proof.
  unfold loop_body.
  apply replays_bind; auto with replays. intros _.
  destruct (_ <=? _)%nat.
  - auto 6 with replays.
  - destruct (tool_calls _); auto with replays.
    apply replays_bind; [apply replays_run_tool_calls |].
    intros [ft' | x]; auto with replays.
Qed.

Lemma replays_loop fuel tools : forall l, replays (loop E fuel tools l).
Proof.
  induction fuel as [| fuel IH]; intros l; cbn [loop].
  - auto with replays.
  - apply replays_bind; auto using replays_loop_body.
    intros [l' | l' | x]; auto with replays.
Qed.

Lemma replays_process_query query : replays (process_query E query).
Proof.
  unfold process_query, prologue.
  apply replays_bind; [auto 10 with replays |].
  intros [tools l]. apply replays_bind; auto using replays_loop with replays.
Qed.

Lemma replays_chat_loop queries : replays (chat_loop E queries).
Proof.
  induction queries as [| q rest IH]; cbn [chat_loop].
  - auto with replays.
  - apply replays_bind; auto using replays_process_query with replays.
Qed.

End replay_methods.

Lemma snapshots_app h1 h2 : snapshots (h1 ++ h2) = snapshots h1 ++ snapshots h2.
Proof. apply omap_app. Qed.



(** ** The system prompt *)

Section system.

Context {A B : Type}.

Lemma no_system_turn_ret (a : A) : no_system_turn (ret a).
Proof. intros self. reflexivity. Qed.

Lemma no_system_turn_bind (m : M A) (k : A -> M B) :
  no_system_turn m -> (forall a, no_system_turn (k a)) ->
  no_system_turn (bind m k).
Proof. intros Hm Hk self. rewrite after_bind, Hk, Hm. reflexivity. Qed.

Lemma no_system_turn_request (ev : MCPClient -> event) (answer : list event -> A) :
  no_system_turn (request ev answer).
Proof. intros self. reflexivity. Qed.

End system.

Lemma no_system_turn_append t :
  system_prompt t = None -> no_system_turn (append t).
Proof.
  intros Ht self. unfold system_prompts. cbn.
  rewrite omap_app. cbn. rewrite Ht. apply app_nil_r.
Qed.

Create HintDb system.
#[local] Hint Resolve no_system_turn_ret no_system_turn_bind
  no_system_turn_request no_system_turn_append : system.

Section system_methods.

Variable E : env.

Lemma no_system_turn_run_tool_call tc ft : no_system_turn (run_tool_call E tc ft).
Proof.
  unfold run_tool_call, session_call_tool.
  destruct (decode_arguments E _); auto with system.
  apply no_system_turn_bind; auto with system.
  intros [result | e]; auto with system.
Qed.

Lemma no_system_turn_run_tool_calls calls :
  forall ft, no_system_turn (run_tool_calls E calls ft).
Proof.
  induction calls as [| tc rest IH]; intros ft; cbn [run_tool_calls].
  - auto with system.
  - apply no_system_turn_bind; [apply no_system_turn_run_tool_call |].
    intros [ft' | x]; auto with system.
Qed.

Lemma no_system_turn_loop_body tools l : no_system_turn (loop_body E tools l).
Proof.
  unfold loop_body, create.
  apply no_system_turn_bind; auto with system. intros _.
  destruct (_ <=? _)%nat.
  - auto 6 with system.
  - destruct (tool_calls _); auto with system.
    apply no_system_turn_bind; [apply no_system_turn_run_tool_calls |].
    intros [ft' | x]; auto with system.
Qed.

Lemma no_system_turn_loop fuel tools :
  forall l, no_system_turn (loop E fuel tools l).
Proof.
  induction fuel as [| fuel IH]; intros l; cbn [loop].
  - auto with system.
  - apply no_system_turn_bind; auto using no_system_turn_loop_body.
    intros [l' | l' | x]; auto with system.
Qed.

(** A query adds the system prompt once. *)
Lemma system_prompts_process_query query self :
  system_prompts (messages (after (process_query E query) self)) =
    system_prompts (messages self) ++ [SYSTEM_PROMPT].
Proof.
  unfold process_query. rewrite after_bind.
  unfold value, after at 2. rewrite prologue_eq. cbn [fst snd].
  rewrite no_system_turn_bind;
    [| apply no_system_turn_loop | auto with system].
  unfold system_prompts. cbn [messages].
  rewrite !omap_app. cbn. rewrite app_nil_r. reflexivity.
Qed.

Lemma system_prompts_chat_loop queries : forall self,
  system_prompts (messages (after (chat_loop E queries) self)) =
    system_prompts (messages self) ++ replicate (length queries) SYSTEM_PROMPT.
Proof.
  induction queries as [| q rest IH]; intros self; cbn [chat_loop].
  - cbn. symmetry. apply app_nil_r.
  - rewrite after_bind, after_bind. unfold after at 1. cbn [ret snd].
    fold (after (chat_loop E rest) (after (process_query E q) self)).
    rewrite IH, system_prompts_process_query, <- app_assoc. reflexivity.
Qed.

End system_methods.

(** X8 -- the system prompt is appended anew by every query and never by
    anything else: a sequence of queries adds one system turn per query to
    the conversation, and after [connect_to_server], which empties the
    conversation, the conversation of a session of [n] queries holds exactly
    [n] system turns, all with the same prompt. *)
Theorem one_system_turn_per_query E queries self :
  system_prompts (messages (after (chat_loop E queries) self)) =
    system_prompts (messages self) ++ replicate (length queries) SYSTEM_PROMPT /\
  system_prompts (messages (after (main E queries) self)) =
    replicate (length queries) SYSTEM_PROMPT.
Proof.
  split; [apply system_prompts_chat_loop |].
  unfold main. rewrite after_bind.
  rewrite system_prompts_chat_loop. reflexivity.
Qed.

(** ** Edge cases of a round *)

(** X9 -- a result that the tool server marks as an error ([isError]) is
    handled like any other result: the call is announced in [final_text]
    and the content blocks are handed to the model unchanged; the flag is
    never read. *)
Theorem reported_tool_error_is_a_result E tc ft self tool_args result :
  decode_arguments E (arguments (function tc)) = Decoded tool_args ->
  let tool_name := name (function tc) in
  let h := history self ++ [CallTool tool_name tool_args] in
  call_tool E h = Ok result ->
  mcp.isError result = true ->
  run_tool_call E tc ft self =
    (Finished (ft ++ [Some (calling_text tool_name (str E tool_args))]),
     {| messages := messages self ++ [Tool (id tc) (Blocks (mcp.content result))];
        history := h |}).
Proof.
  intros Hdec tool_name h Hresult _.
  rewrite (run_tool_call_invoked E tc ft self tool_args Hdec).
  fold tool_name h. rewrite Hresult. reflexivity.
Qed.

Lemma reported_tool_error_is_a_result_witness :
  let failed := {| mcp.content := [mcp.TextContent "quota exceeded"];
                   mcp.isError := true |} in
  let E := {| list_tools := list_tools (scenario.world []);
              chat_completions_create := scenario.scripted [];
              call_tool := fun _ => Ok failed;
              json_loads := json_loads (scenario.world []);
              str := str (scenario.world []) |} in
  mcp.isError failed = true /\
  run_tool_call E scenario.search_call [] scenario.fresh =
    (Finished [Some "[Calling tool search with args {'query': 'martin moder'}]"],
     {| messages := [Tool "call_1" (Blocks [mcp.TextContent "quota exceeded"])];
        history := [CallTool "search" scenario.query_args] |}).
Proof.
  intros failed E.
  split; [reflexivity |].
  exact (reported_tool_error_is_a_result
           E scenario.search_call [] scenario.fresh scenario.query_args failed
           eq_refl eq_refl eq_refl).
Defined.

(** X10 -- a response whose list of tool calls is empty (rather than
    [None]) is not an answer: the pass counts as a round, invokes nothing,
    adds nothing to [final_text] -- the text of the response is dropped --
    and asks the model again. *)
Theorem empty_batch_is_a_round E tools l self :
  tool_call_count l < MAX_TOOL_CALLS ->
  tool_calls (response l) = Some [] ->
  let msgs := messages self ++ [Assistant (response l)] in
  let h := history self ++ [Create msgs (Some tools) (Some 1000)] in
  loop_body E tools l self =
    (Continue {| response := chat_completions_create E h;
                 final_text := final_text l;
                 tool_call_count := S (tool_call_count l) |},
     {| messages := msgs; history := h |}).
Proof.
  intros Hlt Hcalls.
  rewrite (loop_body_tools E tools l self [] Hlt Hcalls). reflexivity.
Qed.

Lemma empty_batch_is_a_round_witness :
  let l := {| response := {| content := Some "Here is my answer.";
                             tool_calls := Some [] |};
              final_text := []; tool_call_count := 0 |} in
  let E := scenario.world [scenario.says (Some "Again.")] in
  tool_call_count l < MAX_TOOL_CALLS /\
  value (loop_body E [] l) scenario.fresh =
    Continue {| response := scenario.says (Some "Again.");
                final_text := []; tool_call_count := 1 |}.
Proof.
  intros l E.
  assert (Hlt : tool_call_count l < MAX_TOOL_CALLS)
    by (unfold MAX_TOOL_CALLS; cbn; lia).
  split; [exact Hlt |].
  unfold value.
  rewrite (empty_batch_is_a_round E [] l scenario.fresh Hlt eq_refl).
  reflexivity.
Defined.
